(** * nevergrad.common.decorators: the [Registry] class

    A shallow embedding of [nevergrad/common/decorators.py].  [Registry] is a
    [dict] subclass mapping names to registered objects, with a private side
    dictionary [_information] mapping names to metadata dictionaries.

    Python objects are references: a metadata dictionary handed to the
    registry stays shared with the caller.  Dictionaries that can be aliased
    therefore live in a heap and are named by their location; the registry
    only ever holds the references.  Exceptions do not roll anything back, so
    every method is a function from the state before the call to an outcome
    (a raised exception or a returned value) together with the state after. *)

From stdpp Require Import gmap strings list fin_maps.

Local Open Scope string_scope.

(** ** Python values *)

(** Identity of a mutable dictionary on the heap. *)
Abbreviation loc := positive.

(** A function, class or instance.  [obj_id] is the identity of the object,
    [dunder_name] its [__name__] attribute when [hasattr(obj, "__name__")]
    holds (functions and classes have one, plain instances do not), and
    [class_name] is [obj.__class__.__name__]. *)
Record pyobj := PyObj {
  obj_id : nat;
  dunder_name : option string;
  class_name : string
}.

Inductive pyval :=
  | VNone
  | VInt (z : Z)
  | VStr (s : string)
  | VDict (l : loc)
  | VObj (o : pyobj).

(** The hashable values, which are the ones a dictionary accepts as keys. *)
Inductive pykey :=
  | KNone
  | KInt (z : Z)
  | KStr (s : string)
  | KObj (o : pyobj).

Global Instance pyobj_eq_dec : EqDecision pyobj.
Proof. solve_decision. Defined.

Global Instance pyval_eq_dec : EqDecision pyval.
Proof. solve_decision. Defined.

Global Instance pykey_eq_dec : EqDecision pykey.
Proof. solve_decision. Defined.

Global Instance pyobj_countable : Countable pyobj.
Proof.
  refine (inj_countable' (λ o, (obj_id o, dunder_name o, class_name o))
                         (λ t, PyObj t.1.1 t.1.2 t.2) _).
  by intros [].
Defined.

Global Instance pykey_countable : Countable pykey.
Proof.
  refine (inj_countable'
    (λ k, match k with
          | KNone => inl ()
          | KInt z => inr (inl z)
          | KStr s => inr (inr (inl s))
          | KObj o => inr (inr (inr o))
          end)
    (λ t, match t with
          | inl _ => KNone
          | inr (inl z) => KInt z
          | inr (inr (inl s)) => KStr s
          | inr (inr (inr o)) => KObj o
          end) _).
  by intros [].
Defined.

(** [hasattr(obj, "__name__")] and [obj.__name__]: of the values modelled,
    only functions and classes carry a [__name__]. *)
Definition getattr_name (v : pyval) : option string :=
  match v with
  | VObj o => dunder_name o
  | _ => None
  end.

(** [obj.__class__.__name__] *)
Definition type_name (v : pyval) : string :=
  match v with
  | VNone => "NoneType"
  | VInt _ => "int"
  | VStr _ => "str"
  | VDict _ => "dict"
  | VObj o => class_name o
  end.

(** [isinstance(v, dict)] *)
Definition isinstance_dict (v : pyval) : bool :=
  match v with VDict _ => true | _ => false end.

(** [v is None] *)
Definition is_none (v : pyval) : bool :=
  match v with VNone => true | _ => false end.

(** ** Exceptions *)

Inductive exn :=
  | RuntimeError (msg : string)
  | AssertionError
  | ValueError (msg : string)
  | TypeError (msg : string).

(** The one-character string holding a double quote (code 34). *)
Definition dquote : string := String (Ascii.ascii_of_nat 34) "".

(** [f'Encountered a name collision "{name}"'] *)
Definition collision_msg (name : string) : string :=
  "Encountered a name collision " +:+ dquote +:+ name +:+ dquote.

(** [f'"{name}" is not registered.'] *)
Definition not_registered_msg (name : string) : string :=
  dquote +:+ name +:+ dquote +:+ " is not registered.".

(** The message of the interpreter when [d[k] = v] is run on a [d] that is
    not a dictionary. *)
Definition item_assignment_msg (d : pyval) : string :=
  "'" +:+ type_name d +:+ "' object does not support item assignment".

(** ** State *)

(** The contents of a heap dictionary. *)
Abbreviation pydict := (gmap pykey pyval).

(** A [Registry] instance: the items it holds as a [dict], and its
    [_information] attribute. *)
Record Registry := mkRegistry {
  entries : gmap string pyval;
  _information : gmap string pyval
}.

Record world := World {
  self : Registry;
  heap : gmap loc pydict
}.

(** [Registry()] in a given heap. *)
Definition Registry_init : Registry := mkRegistry ∅ ∅.

(** ** The monad of Python computations *)

Definition py (A : Type) : Type := world → (exn + A) * world.

Global Instance py_ret : MRet py := λ A a w, (inr a, w).

Global Instance py_bind : MBind py := λ A B f m w,
  match m w with
  | (inl e, w') => (inl e, w')
  | (inr a, w') => f a w'
  end.

Global Instance py_throw : MThrow exn py := λ A e w, (inl e, w).

Definition get_self : py Registry := λ w, (inr (self w), w).

Definition put_self (r : Registry) : py unit :=
  λ w, (inr (), World r (heap w)).

(** A fresh dictionary with the given contents: a [{...}] display or the
    [**kwargs] collection of a call. *)
Definition new_dict (d : pydict) : py pyval := λ w,
  let l := fresh (dom (heap w)) in
  (inr (VDict l), World (self w) (<[l := d]> (heap w))).

(** [assert cond] *)
Definition assert_ (cond : bool) : py unit :=
  if cond then mret () else mthrow AssertionError.

(** ** Operations of [dict] used on [self] and [self._information] *)

(** [name in self] *)
Definition contains (name : string) : py bool :=
  r ← get_self; mret (bool_decide (is_Some (entries r !! name))).

(** [self[name] = obj] *)
Definition setitem (name : string) (obj : pyval) : py unit :=
  r ← get_self; put_self (mkRegistry (<[name := obj]> (entries r)) (_information r)).

(** [del self[name]], called only when [name in self] *)
Definition delitem (name : string) : py unit :=
  r ← get_self; put_self (mkRegistry (delete name (entries r)) (_information r)).

(** [self._information[name] = info] *)
Definition information_setitem (name : string) (info : pyval) : py unit :=
  r ← get_self; put_self (mkRegistry (entries r) (<[name := info]> (_information r))).

(** [self._information.setdefault(name, default)] *)
Definition information_setdefault (name : string) (default : pyval) : py pyval :=
  r ← get_self;
  match _information r !! name with
  | Some v => mret v
  | None =>
      put_self (mkRegistry (entries r) (<[name := default]> (_information r)));;
      mret default
  end.

(** ** The methods of [Registry] *)

Definition register_name (name : string) (obj info : pyval) : py unit :=
  b ← contains name;
  if b : bool then mthrow (RuntimeError (collision_msg name))
  else
    setitem name obj;;
    if negb (is_none info) then
      assert_ (isinstance_dict info);;
      information_setitem name info
    else mret ().

(** [obj.__name__ if hasattr(obj, "__name__") else obj.__class__.__name__] *)
Definition derived_name (obj : pyval) : string :=
  match getattr_name obj with
  | Some n => n
  | None => type_name obj
  end.

Definition register (obj info : pyval) : py pyval :=
  let name := derived_name obj in
  register_name name obj info;;
  mret obj.

Definition unregister (name : string) : py unit :=
  b ← contains name;
  if b : bool then delitem name else mret ().

(** The callable [functools.partial(self.register, info=info)]. *)
Record partial := Partial { keywords_info : pyval }.

(** Calling the partial object with one positional argument. *)
Definition partial_call (p : partial) (obj : pyval) : py pyval :=
  register obj (keywords_info p).

(** [**info] collects the keyword arguments into a fresh dictionary whose
    keys are the argument names. *)
Definition register_with_info (kwargs : gmap string pyval) : py partial :=
  info ← new_dict (kmap KStr kwargs);
  mret (Partial info).

Definition get_info (name : string) : py pyval :=
  b ← contains name;
  if negb b then mthrow (ValueError (not_registered_msg name))
  else
    default ← new_dict ∅;
    information_setdefault name default.

(** ** What a caller can do with the references it holds *)

(** [r[name]]: [None] stands for the [KeyError] of an absent name. *)
Definition lookup_entry (w : world) (name : string) : option pyval :=
  entries (self w) !! name.

(** The contents of the dictionary a value refers to. *)
Definition deref (w : world) (v : pyval) : option pydict :=
  match v with
  | VDict l => heap w !! l
  | _ => None
  end.

(** [d[k] = v] on a reference held by the caller. *)
Definition dict_setitem (d : pyval) (k : pykey) (v : pyval) : py unit :=
  match d with
  | VDict l => λ w, (inr (), World (self w) (alter (insert k v) l (heap w)))
  | _ => mthrow (TypeError (item_assignment_msg d))
  end.

(** [for k, v in muts: d[k] = v] *)
Fixpoint dict_update_all (d : pyval) (muts : list (pykey * pyval)) : py unit :=
  match muts with
  | [] => mret ()
  | (k, v) :: rest => dict_setitem d k v;; dict_update_all d rest
  end.

(** The contents a dictionary has after the same assignments. *)
Definition updated (c : pydict) (muts : list (pykey * pyval)) : pydict :=
  foldl (λ acc kv, <[kv.1 := kv.2]> acc) c muts.

(** ** Call sequences *)

(** [register_with_info(k=v, ...)(obj)], as the decorator syntax
    [@registry.register_with_info(k=v)] runs it. *)
Definition decorate_with_info (kwargs : gmap string pyval) (obj : pyval) : py pyval :=
  p ← register_with_info kwargs;
  partial_call p obj.

(** [register(obj, info={...})] with the dictionary display evaluated at
    the call. *)
Definition register_with_display (d : pydict) (obj : pyval) : py pyval :=
  info ← new_dict d;
  register obj info.

(** Looking [name] up again with [get_info] in the state [w] yields a
    dictionary whose contents are [d]. *)
Definition info_equals (w : world) (name : string) (d : pydict) : Prop :=
  ∃ v w', get_info name w = (inr v, w') ∧ deref w' v = Some d.

(** [register_name(name, obj1, info); unregister(name);
    register_name(name, obj2); get_info(name)] *)
Definition reregister_then_get_info (name : string) (obj1 info obj2 : pyval) : py pyval :=
  register_name name obj1 info;;
  unregister name;;
  register_name name obj2 VNone;;
  get_info name.

(** The registry state with [entries] replaced. *)
Definition with_entries (w : world) (e : gmap string pyval) : world :=
  World (mkRegistry e (_information (self w))) (heap w).

(** ** Sample objects and states *)

(** A function [f], and two instances of a class [A]. *)
Definition f_obj : pyval := VObj (PyObj 1 (Some "f") "function").
Definition a1 : pyval := VObj (PyObj 2 None "A").
Definition a2 : pyval := VObj (PyObj 3 None "A").

(** A world holding an empty registry and nothing else. *)
Definition world_init : world := World Registry_init ∅.

(** [r = Registry(); r.register_name("foo", 42)] *)
Definition world_foo : world :=
  World (mkRegistry {["foo" := VInt 42]} ∅) ∅.

(** A registry in which the name [f] is already taken by another object. *)
Definition world_f_taken : world :=
  World (mkRegistry {["f" := VInt 0]} ∅) ∅.

(** A registry in which the name [A] is already taken by another object. *)
Definition world_A_taken : world :=
  World (mkRegistry {["A" := VInt 0]} ∅) ∅.

(** ** Invariants of the registry state *)

(** [v] is a reference to a dictionary that exists on the heap of [w]. *)
Definition live (w : world) (v : pyval) : Prop :=
  match v with
  | VDict l => is_Some (heap w !! l)
  | _ => False
  end.

(** Every value of [_information] is a dictionary. *)
Definition info_wf (w : world) : Prop :=
  map_Forall (λ _ v, live w v) (_information (self w)).

(** Every key of [_information] is a registered name. *)
Definition info_keys_registered (w : world) : Prop :=
  dom (_information (self w)) ⊆ dom (entries (self w)).

(** [len(self)] *)
Definition len (w : world) : nat := size (entries (self w)).

(** One decorator object applied to two objects:
    [deco = registry.register_with_info(k=v, ...); deco(o1); deco(o2)]. *)
Definition decorate_twice (kwargs : gmap string pyval) (o1 o2 : pyval) : py partial :=
  p ← register_with_info kwargs;
  partial_call p o1;;
  partial_call p o2;;
  mret p.

(** A heap holding one metadata dictionary, [{"priority": 1}], at location 1,
    and one more, [{"priority": 2}], at location 2. *)
Definition heap_two : gmap loc pydict :=
  {[ 1%positive := {[KStr "priority" := VInt 1]};
     2%positive := {[KStr "priority" := VInt 2]} ]}.

(** An empty registry next to those two dictionaries. *)
Definition world_two : world := World Registry_init heap_two.

(** * Properties *)

Ltac py_unfold :=
  unfold register, register_name, unregister, get_info, partial_call,
    register_with_info, information_setdefault, information_setitem,
    setitem, delitem, contains, assert_, new_dict, put_self, get_self,
    lookup_entry, with_entries in *;
  unfold mbind, py_bind, mret, py_ret, mthrow, py_throw in *; simpl in *.

Section registry_lemmas.
Implicit Types (w : world) (name : string) (obj info : pyval).

Lemma in_self_true w name obj :
  entries (self w) !! name = Some obj →
  bool_decide (is_Some (entries (self w) !! name)) = true.
Proof. intros H. apply bool_decide_eq_true_2. by rewrite H. Qed.

Lemma in_self_false w name :
  entries (self w) !! name = None →
  bool_decide (is_Some (entries (self w) !! name)) = false.
Proof.
  intros H. apply bool_decide_eq_false_2. rewrite H. apply is_Some_None.
Qed.

(** A collision is detected before anything is written. *)
Lemma register_name_present w name obj0 obj info :
  lookup_entry w name = Some obj0 →
  register_name name obj info w = (inl (RuntimeError (collision_msg name)), w).
Proof. intros H. py_unfold. by rewrite (in_self_true _ _ _ H). Qed.

(** Registration of a free name without metadata. *)
Lemma register_name_absent_none w name obj :
  lookup_entry w name = None →
  register_name name obj VNone w
  = (inr (), with_entries w (<[name := obj]> (entries (self w)))).
Proof. intros H. py_unfold. by rewrite (in_self_false _ _ H). Qed.

(** Registration of a free name with a metadata dictionary. *)
Lemma register_name_absent_dict w name obj l :
  lookup_entry w name = None →
  register_name name obj (VDict l) w
  = (inr (), World (mkRegistry (<[name := obj]> (entries (self w)))
                               (<[name := VDict l]> (_information (self w))))
                   (heap w)).
Proof. intros H. py_unfold. by rewrite (in_self_false _ _ H). Qed.

(** Registration of a free name with metadata that is not a dictionary:
    the assertion fails after the entry has been written. *)
Lemma register_name_absent_bad_info w name obj info :
  lookup_entry w name = None →
  is_none info = false →
  isinstance_dict info = false →
  register_name name obj info w
  = (inl AssertionError, with_entries w (<[name := obj]> (entries (self w)))).
Proof.
  intros H Hn Hd. py_unfold. rewrite (in_self_false _ _ H), Hn, Hd. done.
Qed.

Lemma world_eta w : World (mkRegistry (entries (self w)) (_information (self w))) (heap w) = w.
Proof. by destruct w as [[] ?]. Qed.

Lemma unregister_present w name obj :
  lookup_entry w name = Some obj →
  unregister name w = (inr (), with_entries w (delete name (entries (self w)))).
Proof. intros H. py_unfold. by rewrite (in_self_true _ _ _ H). Qed.

Lemma unregister_absent w name :
  lookup_entry w name = None →
  unregister name w = (inr (), w).
Proof. intros H. py_unfold. by rewrite (in_self_false _ _ H). Qed.

(** In every state [unregister] returns, and the entries it leaves are
    the old ones without [name]. *)
Lemma unregister_total w name :
  unregister name w = (inr (), with_entries w (delete name (entries (self w)))).
Proof.
  destruct (lookup_entry w name) as [obj|] eqn:H.
  - by apply unregister_present with obj.
  - rewrite unregister_absent by done.
    unfold with_entries. unfold lookup_entry in H.
    rewrite delete_id by done. by rewrite world_eta.
Qed.

Lemma get_info_absent w name :
  lookup_entry w name = None →
  get_info name w = (inl (ValueError (not_registered_msg name)), w).
Proof. intros H. py_unfold. by rewrite (in_self_false _ _ H). Qed.

(** First access: the fresh empty dictionary is stored and returned. *)
Lemma get_info_first w name obj :
  lookup_entry w name = Some obj →
  _information (self w) !! name = None →
  get_info name w
  = (inr (VDict (fresh (dom (heap w)))),
     World (mkRegistry (entries (self w))
              (<[name := VDict (fresh (dom (heap w)))]> (_information (self w))))
           (<[fresh (dom (heap w)) := ∅]> (heap w))).
Proof.
  intros H Hi. py_unfold. rewrite (in_self_true _ _ _ H). simpl.
  by rewrite Hi.
Qed.

(** Later accesses: the stored value is returned; the dictionary built for
    the default is left unreferenced on the heap. *)
Lemma get_info_stored w name obj v :
  lookup_entry w name = Some obj →
  _information (self w) !! name = Some v →
  get_info name w
  = (inr v, World (self w) (<[fresh (dom (heap w)) := ∅]> (heap w))).
Proof.
  intros H Hi. py_unfold. rewrite (in_self_true _ _ _ H). simpl.
  rewrite Hi. by destruct w as [[] ?].
Qed.

Lemma fresh_heap_None w : heap w !! fresh (dom (heap w)) = None.
Proof. apply not_elem_of_dom, is_fresh. Qed.

(** An assignment through a live reference replaces the contents at its
    location. *)
Lemma dict_setitem_live w l (c : pydict) (k : pykey) (v : pyval) :
  heap w !! l = Some c →
  dict_setitem (VDict l) k v w
  = (inr (), World (self w) (<[l := <[k := v]> c]> (heap w))).
Proof.
  intros Hl. unfold dict_setitem. do 2 f_equal.
  apply map_eq. intros i. rewrite lookup_alter, lookup_insert.
  destruct (decide (l = i)) as [<-|]; [by rewrite Hl | done].
Qed.

End registry_lemmas.

(** ** [register] *)

(** C1, as stated, does not hold: with no condition on the registry,
    [register(o)] does not always store [o] and return it.  When the derived
    name is already taken, the call raises and the earlier object stays. *)
Lemma register_taken_name_counterexample :
  ¬ (∀ (w : world) (obj : pyval),
       ∃ w', register obj VNone w = (inr obj, w')
             ∧ lookup_entry w' (derived_name obj) = Some obj).
Proof.
  intros H. destruct (H world_f_taken f_obj) as (w' & Hr & _).
  vm_compute in Hr. discriminate Hr.
Qed.

(** C1 (amended): for every object [obj] whose derived name (its [__name__]
    if it has one, else the name of its class) is not yet in [entries],
    [register(obj)] returns [obj] itself, and afterwards the derived name
    looks up to [obj]; nothing else in the state changes. *)
Theorem register_stores_and_returns (w : world) (obj : pyval) :
  lookup_entry w (derived_name obj) = None →
  ∃ w', register obj VNone w = (inr obj, w')
        ∧ lookup_entry w' (derived_name obj) = Some obj
        ∧ w' = with_entries w (<[derived_name obj := obj]> (entries (self w))).
Proof.
  intros H. eexists. split; [|split; [|reflexivity]].
  - unfold register. unfold mbind, py_bind.
    by rewrite register_name_absent_none.
  - unfold lookup_entry, with_entries. simpl. apply lookup_insert_eq.
Qed.

Lemma register_stores_and_returns_witness :
  ∃ w', register f_obj VNone world_init = (inr f_obj, w')
        ∧ lookup_entry w' (derived_name f_obj) = Some f_obj
        ∧ w' = with_entries world_init
                 (<[derived_name f_obj := f_obj]> (entries (self world_init))).
Proof. apply (register_stores_and_returns world_init f_obj). reflexivity. Defined.

(** ** [register_name] *)

(** C2: in every state where [name] is already in [entries], holding [obj1],
    [register_name(name, obj2, info)] raises the name-collision
    [RuntimeError] whatever [obj2] and [info] are; the state is left exactly
    as it was, so [obj2] is not stored and [name] still looks up to [obj1]. *)
Theorem register_name_collision (w : world) (name : string) (obj1 obj2 info : pyval) :
  lookup_entry w name = Some obj1 →
  register_name name obj2 info w = (inl (RuntimeError (collision_msg name)), w)
  ∧ lookup_entry (register_name name obj2 info w).2 name = Some obj1
  ∧ entries (self (register_name name obj2 info w).2) = entries (self w).
Proof.
  intros H. rewrite (register_name_present w name obj1 obj2 info H).
  by repeat split.
Qed.

Lemma register_name_collision_witness :
  register_name "foo" (VInt 43) VNone world_foo
  = (inl (RuntimeError (collision_msg "foo")), world_foo)
  ∧ lookup_entry (register_name "foo" (VInt 43) VNone world_foo).2 "foo"
    = Some (VInt 42)
  ∧ entries (self (register_name "foo" (VInt 43) VNone world_foo).2)
    = entries (self world_foo).
Proof.
  apply (register_name_collision world_foo "foo" (VInt 42) (VInt 43) VNone).
  reflexivity.
Defined.

(** C5, as stated, does not hold: a failing [register_name] with metadata
    that is not a dictionary does not leave the state unchanged.  The
    entry is written before the assertion on [info] is evaluated. *)
Lemma register_name_bad_info_counterexample :
  ¬ (∀ (w : world) (name : string) (obj info : pyval),
       lookup_entry w name = None →
       is_none info = false →
       isinstance_dict info = false →
       ∃ e, register_name name obj info w = (inl e, w)).
Proof.
  intros H.
  destruct (H world_init "foo" (VInt 42) (VInt 3)) as (e & He);
    [reflexivity..|].
  vm_compute in He. discriminate He.
Qed.

(** C5 (amended): for every name not in [entries] and every [info] that is
    neither [None] nor a dictionary, [register_name(name, obj, info)] fails
    with the [AssertionError] of [assert isinstance(info, dict)];
    [_information] and the heap are unchanged, but [obj] has already been
    stored under [name] in [entries] when the error is raised. *)
Theorem register_name_bad_info (w : world) (name : string) (obj info : pyval) :
  lookup_entry w name = None →
  is_none info = false →
  isinstance_dict info = false →
  ∃ w', register_name name obj info w = (inl AssertionError, w')
        ∧ _information (self w') = _information (self w)
        ∧ heap w' = heap w
        ∧ entries (self w') = <[name := obj]> (entries (self w))
        ∧ lookup_entry w' name = Some obj.
Proof.
  intros H Hn Hd. eexists. split.
  - by apply register_name_absent_bad_info.
  - unfold with_entries, lookup_entry. simpl.
    repeat split. apply lookup_insert_eq.
Qed.

Lemma register_name_bad_info_witness :
  ∃ w', register_name "foo" (VInt 42) (VInt 3) world_init = (inl AssertionError, w')
        ∧ _information (self w') = _information (self world_init)
        ∧ heap w' = heap world_init
        ∧ entries (self w') = <["foo" := VInt 42]> (entries (self world_init))
        ∧ lookup_entry w' "foo" = Some (VInt 42).
Proof.
  apply (register_name_bad_info world_init "foo" (VInt 42) (VInt 3));
    reflexivity.
Defined.

(** C10: for every name not in [entries], [register_name(name, obj)] with
    [info] left at [None] returns normally, adds [name] to [entries] and
    leaves [_information] (and every dictionary on the heap) as it was. *)
Theorem register_name_keeps_information (w : world) (name : string) (obj : pyval) :
  lookup_entry w name = None →
  ∃ w', register_name name obj VNone w = (inr (), w')
        ∧ _information (self w') = _information (self w)
        ∧ heap w' = heap w
        ∧ entries (self w') = <[name := obj]> (entries (self w)).
Proof.
  intros H. eexists. split.
  - by apply register_name_absent_none.
  - by repeat split.
Qed.

Lemma register_name_keeps_information_witness :
  ∃ w', register_name "bar" f_obj VNone world_foo = (inr (), w')
        ∧ _information (self w') = _information (self world_foo)
        ∧ heap w' = heap world_foo
        ∧ entries (self w') = <["bar" := f_obj]> (entries (self world_foo)).
Proof.
  apply (register_name_keeps_information world_foo "bar" f_obj). reflexivity.
Defined.

(** ** [get_info] on an unknown name *)

(** C6: for every name absent from [entries], [get_info(name)] raises the
    not-registered [ValueError], and the state is left exactly as it was. *)
Theorem get_info_not_registered (w : world) (name : string) :
  lookup_entry w name = None →
  get_info name w = (inl (ValueError (not_registered_msg name)), w).
Proof. apply get_info_absent. Qed.

Lemma get_info_not_registered_witness :
  get_info "bar" world_foo = (inl (ValueError (not_registered_msg "bar")), world_foo).
Proof. apply (get_info_not_registered world_foo "bar"). reflexivity. Defined.

(** ** [unregister] *)

(** C7: in every state and for every name, [unregister(name)] returns
    normally.  Afterwards [name] is not in [entries] and every other name is
    as before; when [name] was absent the state is unchanged; and a second
    [unregister(name)] returns normally and changes nothing. *)
Theorem unregister_never_raises (w : world) (name : string) :
  ∃ w', unregister name w = (inr (), w')
        ∧ entries (self w') = delete name (entries (self w))
        ∧ lookup_entry w' name = None
        ∧ (∀ other, other ≠ name → lookup_entry w' other = lookup_entry w other)
        ∧ (lookup_entry w name = None → w' = w)
        ∧ unregister name w' = (inr (), w').
Proof.
  eexists. split; [apply unregister_total|].
  unfold with_entries, lookup_entry. simpl.
  split; [done|]. split; [apply lookup_delete_eq|].
  split; [intros other Hne; by apply lookup_delete_ne|].
  split.
  - intros H. rewrite delete_id by done. apply world_eta.
  - apply unregister_absent. unfold lookup_entry. simpl. apply lookup_delete_eq.
Qed.

(** C8: in every state and for every name, [unregister(name)] leaves
    [_information] and the dictionaries on the heap untouched, so metadata
    stored for [name] is still stored, with the same contents, after [name]
    has been removed from [entries]. *)
Theorem unregister_keeps_information (w : world) (name : string) :
  _information (self (unregister name w).2) = _information (self w)
  ∧ heap (unregister name w).2 = heap w
  ∧ ∀ info, _information (self w) !! name = Some info →
            _information (self (unregister name w).2) !! name = Some info
            ∧ deref (unregister name w).2 info = deref w info.
Proof.
  rewrite unregister_total. unfold with_entries. simpl.
  split; [done|]. split; [done|]. intros info H. split; [done|].
  by destruct info.
Qed.

(** ** Distinct instances of one class *)

(** C9, as stated, does not hold: with no condition on the registry, the
    first of the two registrations need not succeed.  When the class name is
    already taken, [register(o1)] itself raises. *)
Lemma register_same_class_counterexample :
  ¬ (∀ (w : world) (o1 o2 : pyval),
       o1 ≠ o2 →
       getattr_name o1 = None →
       getattr_name o2 = None →
       type_name o1 = type_name o2 →
       ∃ w1, register o1 VNone w = (inr o1, w1)
             ∧ register o2 VNone w1
               = (inl (RuntimeError (collision_msg (type_name o1))), w1)).
Proof.
  intros H.
  destruct (H world_A_taken a1 a2) as (w1 & Hr & _); [done..|].
  vm_compute in Hr. discriminate Hr.
Qed.

(** C9 (amended): for any two objects [o1] and [o2] without a [__name__]
    and of the same class, in a registry where the class name is not yet in
    [entries], [register(o1)] succeeds and stores [o1] under the class name,
    and [register(o2)] then raises the name-collision [RuntimeError] for
    that name, leaving [o1] in place. *)
Theorem register_same_class_collides (w : world) (o1 o2 : pyval) :
  getattr_name o1 = None →
  getattr_name o2 = None →
  type_name o1 = type_name o2 →
  lookup_entry w (type_name o1) = None →
  derived_name o1 = type_name o1
  ∧ derived_name o2 = type_name o1
  ∧ ∃ w1, register o1 VNone w = (inr o1, w1)
          ∧ register o2 VNone w1
            = (inl (RuntimeError (collision_msg (type_name o1))), w1)
          ∧ lookup_entry w1 (type_name o1) = Some o1.
Proof.
  intros H1 H2 Hc Hfree.
  assert (Hn1 : derived_name o1 = type_name o1)
    by (unfold derived_name; by rewrite H1).
  assert (Hn2 : derived_name o2 = type_name o1)
    by (unfold derived_name; by rewrite H2).
  split; [done|]. split; [done|].
  assert (Hin : lookup_entry
                  (with_entries w (<[type_name o1 := o1]> (entries (self w))))
                  (type_name o1) = Some o1).
  { unfold lookup_entry, with_entries. simpl. apply lookup_insert_eq. }
  eexists. split; [|split; [|exact Hin]].
  - unfold register, mbind, py_bind. rewrite Hn1.
    by rewrite register_name_absent_none.
  - unfold register, mbind, py_bind. rewrite Hn2.
    by rewrite (register_name_present _ _ o1 o2 VNone Hin).
Qed.

Lemma register_same_class_collides_witness :
  derived_name a1 = type_name a1
  ∧ derived_name a2 = type_name a1
  ∧ ∃ w1, register a1 VNone world_foo = (inr a1, w1)
          ∧ register a2 VNone w1
            = (inl (RuntimeError (collision_msg (type_name a1))), w1)
          ∧ lookup_entry w1 (type_name a1) = Some a1.
Proof.
  apply (register_same_class_collides world_foo a1 a2); reflexivity.
Defined.

(** ** [register_with_info] *)

(** C3, as stated, does not hold: with no condition on the registry, the
    two calls do not always store [obj] and its metadata.  When the derived
    name is already taken they both raise, and the earlier object stays. *)
Lemma register_with_info_counterexample :
  ¬ (∀ (w : world) (obj : pyval) (k : string) (v : pyval),
       decorate_with_info {[k := v]} obj w
       = register_with_display {[KStr k := v]} obj w
       ∧ lookup_entry (decorate_with_info {[k := v]} obj w).2 (derived_name obj)
         = Some obj
       ∧ info_equals (decorate_with_info {[k := v]} obj w).2 (derived_name obj)
           {[KStr k := v]}).
Proof.
  intros H.
  destruct (H world_f_taken f_obj "priority" (VInt 1)) as (_ & Hl & _).
  vm_compute in Hl. discriminate Hl.
Qed.

(** The registration both calls perform once the dictionary is built. *)
Lemma register_fresh_dict (w : world) (obj : pyval) (d : pydict) :
  lookup_entry w (derived_name obj) = None →
  register_with_display d obj w
  = (inr obj,
     World (mkRegistry
              (<[derived_name obj := obj]> (entries (self w)))
              (<[derived_name obj := VDict (fresh (dom (heap w)))]>
                 (_information (self w))))
           (<[fresh (dom (heap w)) := d]> (heap w))).
Proof.
  intros H. unfold register_with_display, register, new_dict.
  unfold mbind, py_bind.
  by rewrite register_name_absent_dict.
Qed.

(** C3 (amended): for every object [obj] and keyword argument [k=v],
    applying [register_with_info(k=v)] to [obj] has the same outcome and
    leaves the same state as [register(obj, info={"k": v})]; and when the
    derived name of [obj] is not yet in [entries], both return [obj], store it
    under that name, and make [get_info] of the name a dictionary equal to
    [{"k": v}]. *)
Theorem register_with_info_equiv (w : world) (obj : pyval) (k : string) (v : pyval) :
  decorate_with_info {[k := v]} obj w
  = register_with_display {[KStr k := v]} obj w
  ∧ (lookup_entry w (derived_name obj) = None →
     ∃ w1, decorate_with_info {[k := v]} obj w = (inr obj, w1)
           ∧ register_with_display {[KStr k := v]} obj w = (inr obj, w1)
           ∧ lookup_entry w1 (derived_name obj) = Some obj
           ∧ info_equals w1 (derived_name obj) {[KStr k := v]}).
Proof.
  assert (Heq : decorate_with_info {[k := v]} obj w
                = register_with_display {[KStr k := v]} obj w).
  { unfold decorate_with_info, register_with_display, register_with_info,
      partial_call.
    unfold mbind, py_bind, mret, py_ret, new_dict. simpl.
    by rewrite kmap_singleton. }
  split; [exact Heq|]. intros Hfree.
  rewrite Heq, (register_fresh_dict w obj _ Hfree).
  eexists. split; [reflexivity|]. split; [reflexivity|].
  set (l := fresh (dom (heap w))).
  assert (Hin : lookup_entry
    (World (mkRegistry (<[derived_name obj := obj]> (entries (self w)))
              (<[derived_name obj := VDict l]> (_information (self w))))
           (<[l := {[KStr k := v]}]> (heap w)))
    (derived_name obj) = Some obj).
  { unfold lookup_entry. simpl. apply lookup_insert_eq. }
  split; [exact Hin|].
  unfold info_equals. eexists _, _. split.
  - apply (get_info_stored _ _ obj (VDict l) Hin). simpl.
    apply lookup_insert_eq.
  - simpl. rewrite lookup_insert_ne.
    + apply lookup_insert_eq.
    + intros Hbad.
      apply (is_fresh (dom (<[l := ({[KStr k := v]} : pydict)]> (heap w)))).
      rewrite Hbad. apply elem_of_dom. rewrite lookup_insert_eq. by eexists.
Qed.

Lemma register_with_info_equiv_witness :
  decorate_with_info {["priority" := VInt 1]} f_obj world_init
  = register_with_display {[KStr "priority" := VInt 1]} f_obj world_init
  ∧ ∃ w1, decorate_with_info {["priority" := VInt 1]} f_obj world_init = (inr f_obj, w1)
          ∧ register_with_display {[KStr "priority" := VInt 1]} f_obj world_init
            = (inr f_obj, w1)
          ∧ lookup_entry w1 (derived_name f_obj) = Some f_obj
          ∧ info_equals w1 (derived_name f_obj) {[KStr "priority" := VInt 1]}.
Proof.
  destruct (register_with_info_equiv world_init f_obj "priority" (VInt 1))
    as [Heq Hfree].
  split; [exact Heq|]. apply Hfree. reflexivity.
Defined.

(** ** [get_info] on a name registered without metadata *)

(** Assignments through a reference reach the dictionary it names and
    nothing else. *)
Lemma dict_update_all_heap (muts : list (pykey * pyval)) :
  ∀ (w : world) (l : loc) (c : pydict),
    heap w !! l = Some c →
    dict_update_all (VDict l) muts w
    = (inr (), World (self w) (<[l := updated c muts]> (heap w))).
Proof.
  induction muts as [|[k v] rest IH]; intros w l c Hl; cbn [dict_update_all].
  - unfold mret, py_ret, updated. simpl.
    rewrite insert_id by done. by destruct w.
  - unfold mbind, py_bind. rewrite (dict_setitem_live w l c k v Hl).
    rewrite (IH _ l (<[k := v]> c)) by (simpl; apply lookup_insert_eq).
    simpl. by rewrite insert_insert_eq.
Qed.

(** A later [get_info] hands back the stored reference and leaves the
    dictionary it names as it is. *)
Lemma get_info_again (w : world) (name : string) (obj : pyval) (l : loc) (c : pydict) :
  lookup_entry w name = Some obj →
  _information (self w) !! name = Some (VDict l) →
  heap w !! l = Some c →
  ∃ w', get_info name w = (inr (VDict l), w')
        ∧ self w' = self w
        ∧ deref w' (VDict l) = Some c.
Proof.
  intros H Hi Hl. eexists. split; [by apply get_info_stored with obj|].
  split; [done|]. simpl. rewrite lookup_insert_ne; [done|].
  intros Hbad. rewrite <- Hbad in Hl. by rewrite fresh_heap_None in Hl.
Qed.

(** C4: for every name that is in [entries] and has nothing stored in
    [_information], [get_info(name)] returns a dictionary that is empty;
    calling [get_info(name)] again returns the same dictionary (the same
    reference); and after any assignments [d[k] = v] made through the
    returned reference, [get_info(name)] still returns that reference, whose
    contents are then the result of those assignments. *)
Theorem get_info_default_is_shared
    (w : world) (name : string) (obj : pyval) (muts : list (pykey * pyval)) :
  lookup_entry w name = Some obj →
  _information (self w) !! name = None →
  ∃ d w1, get_info name w = (inr d, w1)
          ∧ deref w1 d = Some ∅
          ∧ (∃ w2, get_info name w1 = (inr d, w2) ∧ deref w2 d = Some ∅)
          ∧ (∃ w3, (dict_update_all d muts;; get_info name) w1 = (inr d, w3)
                   ∧ deref w3 d = Some (updated ∅ muts)).
Proof.
  intros H Hi. set (l := fresh (dom (heap w))).
  exists (VDict l). eexists. split; [by apply get_info_first with obj|].
  fold l.
  set (w1 := World (mkRegistry (entries (self w))
                      (<[name := VDict l]> (_information (self w))))
                   (<[l := ∅]> (heap w))).
  assert (H1 : lookup_entry w1 name = Some obj) by done.
  assert (Hi1 : _information (self w1) !! name = Some (VDict l))
    by (simpl; apply lookup_insert_eq).
  assert (Hl1 : heap w1 !! l = Some ∅) by (simpl; apply lookup_insert_eq).
  split; [exact Hl1|]. split.
  - destruct (get_info_again w1 name obj l ∅ H1 Hi1 Hl1) as (w2 & Hg & _ & Hd).
    by exists w2.
  - unfold mbind, py_bind.
    rewrite (dict_update_all_heap muts w1 l ∅ Hl1).
    set (w1' := World (self w1) (<[l := updated ∅ muts]> (heap w1))).
    destruct (get_info_again w1' name obj l (updated ∅ muts)) as (w3 & Hg & _ & Hd);
      [done | done | simpl; apply lookup_insert_eq |].
    by exists w3.
Qed.

Lemma get_info_default_is_shared_witness :
  ∃ d w1, get_info "foo" world_foo = (inr d, w1)
          ∧ deref w1 d = Some ∅
          ∧ (∃ w2, get_info "foo" w1 = (inr d, w2) ∧ deref w2 d = Some ∅)
          ∧ (∃ w3, (dict_update_all d [(KStr "seen", VInt 1); (KStr "seen", VInt 2)];;
                    get_info "foo") w1 = (inr d, w3)
                   ∧ deref w3 d
                     = Some (updated ∅ [(KStr "seen", VInt 1); (KStr "seen", VInt 2)])).
Proof.
  apply (get_info_default_is_shared world_foo "foo" (VInt 42)
           [(KStr "seen", VInt 1); (KStr "seen", VInt 2)]); reflexivity.
Defined.

(** ** Metadata left behind by [unregister] *)

(** After a name registered with a metadata dictionary has been
    unregistered and registered again without metadata, [get_info] returns
    the dictionary of the first registration. *)
Theorem get_info_after_reregistration
    (w : world) (name : string) (obj1 obj2 : pyval) (l : loc) (c : pydict) :
  lookup_entry w name = None →
  heap w !! l = Some c →
  ∃ w', reregister_then_get_info name obj1 (VDict l) obj2 w = (inr (VDict l), w')
        ∧ lookup_entry w' name = Some obj2
        ∧ deref w' (VDict l) = Some c.
Proof.
  intros H Hl. unfold reregister_then_get_info, mbind, py_bind.
  rewrite register_name_absent_dict by done.
  rewrite unregister_total. unfold with_entries. simpl.
  rewrite delete_insert_eq.
  rewrite register_name_absent_none
    by (unfold lookup_entry in *; simpl; by rewrite lookup_delete_eq).
  unfold with_entries. simpl.
  match goal with |- context [get_info name ?w0] => set (w2 := w0) end.
  destruct (get_info_again w2 name obj2 l c) as (w' & Hg & Hs & Hd).
  - unfold lookup_entry. simpl. apply lookup_insert_eq.
  - simpl. apply lookup_insert_eq.
  - done.
  - exists w'. split; [done|]. split; [|done].
    unfold lookup_entry. rewrite Hs. simpl. apply lookup_insert_eq.
Qed.

Lemma get_info_after_reregistration_witness :
  ∃ w', reregister_then_get_info "foo" (VInt 42) (VDict 1) (VInt 43)
          (World Registry_init {[1%positive := {[KStr "priority" := VInt 1]}]})
        = (inr (VDict 1), w')
        ∧ lookup_entry w' "foo" = Some (VInt 43)
        ∧ deref w' (VDict 1) = Some {[KStr "priority" := VInt 1]}.
Proof.
  apply (get_info_after_reregistration
           (World Registry_init {[1%positive := {[KStr "priority" := VInt 1]}]})
           "foo" (VInt 42) (VInt 43) 1 {[KStr "priority" := VInt 1]});
    reflexivity.
Defined.

(** * Further properties of the methods *)

(** ** Registration and removal compose *)

(** Registering a free name without metadata and unregistering it again
    restores the state exactly; with a metadata dictionary, [entries] is
    restored and the dictionary stays behind in [_information]. *)
Theorem register_unregister_roundtrip (w : world) (name : string) (obj : pyval) (l : loc) :
  lookup_entry w name = None →
  (register_name name obj VNone;; unregister name) w = (inr (), w)
  ∧ (register_name name obj (VDict l);; unregister name) w
    = (inr (), World (mkRegistry (entries (self w))
                        (<[name := VDict l]> (_information (self w))))
                     (heap w)).
Proof.
  intros H. unfold mbind, py_bind. split.
  - rewrite register_name_absent_none by done.
    rewrite unregister_total. unfold with_entries. simpl.
    rewrite delete_insert_eq, delete_id by done. by rewrite world_eta.
  - rewrite register_name_absent_dict by done.
    rewrite unregister_total. unfold with_entries. simpl.
    by rewrite delete_insert_eq, delete_id by done.
Qed.

Lemma register_unregister_roundtrip_witness :
  (register_name "bar" f_obj VNone;; unregister "bar") world_foo = (inr (), world_foo)
  ∧ (register_name "bar" f_obj (VDict 1);; unregister "bar") world_foo
    = (inr (), World (mkRegistry (entries (self world_foo))
                        (<["bar" := VDict 1]> (_information (self world_foo))))
                     (heap world_foo)).
Proof. apply (register_unregister_roundtrip world_foo "bar" f_obj 1). reflexivity. Defined.

(** In every state, [unregister(name)] followed by [register_name(name, obj)]
    returns normally and leaves [name] bound to [obj], whatever it was bound
    to before; other names and [_information] are untouched. *)
Theorem unregister_then_register_succeeds (w : world) (name : string) (obj : pyval) :
  ∃ w', (unregister name;; register_name name obj VNone) w = (inr (), w')
        ∧ lookup_entry w' name = Some obj
        ∧ (∀ other, other ≠ name → lookup_entry w' other = lookup_entry w other)
        ∧ _information (self w') = _information (self w)
        ∧ heap w' = heap w.
Proof.
  unfold mbind, py_bind. rewrite unregister_total.
  rewrite register_name_absent_none
    by (unfold lookup_entry, with_entries; simpl; apply lookup_delete_eq).
  eexists. split; [reflexivity|].
  unfold lookup_entry, with_entries. simpl.
  split; [apply lookup_insert_eq|]. split; [|done].
  intros other Hne. rewrite lookup_insert_ne by done. by apply lookup_delete_ne.
Qed.

(** A name registered with metadata, unregistered, and registered again
    with other metadata: [get_info] returns the dictionary of the second
    registration. *)
Theorem reregistration_replaces_info
    (w : world) (name : string) (obj1 obj2 : pyval) (l1 l2 : loc) (c2 : pydict) :
  lookup_entry w name = None →
  heap w !! l2 = Some c2 →
  ∃ w', (register_name name obj1 (VDict l1);; unregister name;;
         register_name name obj2 (VDict l2);; get_info name) w
        = (inr (VDict l2), w')
        ∧ lookup_entry w' name = Some obj2
        ∧ deref w' (VDict l2) = Some c2.
Proof.
  intros H Hl. unfold mbind, py_bind.
  rewrite register_name_absent_dict by done.
  rewrite unregister_total. unfold with_entries. simpl.
  rewrite delete_insert_eq.
  rewrite register_name_absent_dict
    by (unfold lookup_entry in *; simpl; apply lookup_delete_eq).
  simpl. rewrite insert_insert_eq.
  match goal with |- context [get_info name ?w0] => set (w2 := w0) end.
  destruct (get_info_again w2 name obj2 l2 c2) as (w' & Hg & Hs & Hd).
  - unfold lookup_entry. simpl. apply lookup_insert_eq.
  - simpl. apply lookup_insert_eq.
  - done.
  - exists w'. split; [done|]. split; [|done].
    unfold lookup_entry. rewrite Hs. simpl. apply lookup_insert_eq.
Qed.

Lemma reregistration_replaces_info_witness :
  ∃ w', (register_name "foo" (VInt 42) (VDict 1);; unregister "foo";;
         register_name "foo" (VInt 43) (VDict 2);; get_info "foo") world_two
        = (inr (VDict 2), w')
        ∧ lookup_entry w' "foo" = Some (VInt 43)
        ∧ deref w' (VDict 2) = Some {[KStr "priority" := VInt 2]}.
Proof.
  apply (reregistration_replaces_info world_two "foo" (VInt 42) (VInt 43) 1 2
           {[KStr "priority" := VInt 2]}); reflexivity.
Defined.

(** ** What [register_name] and [register] can do *)

(** Whatever its arguments and whether it returns or raises,
    [register_name(name, ...)] leaves every other name as it was, in [entries]
    and in [_information], and writes to no dictionary on the heap. *)
Theorem register_name_frame (w : world) (name other : string) (obj info : pyval) :
  other ≠ name →
  lookup_entry (register_name name obj info w).2 other = lookup_entry w other
  ∧ _information (self (register_name name obj info w).2) !! other
    = _information (self w) !! other
  ∧ heap (register_name name obj info w).2 = heap w.
Proof.
  intros Hne. destruct (lookup_entry w name) as [obj0|] eqn:H.
  - by rewrite (register_name_present w name obj0 obj info H).
  - destruct info as [|z|s|l|o].
    2,3,5: rewrite register_name_absent_bad_info by done.
    1: rewrite register_name_absent_none by done.
    5: rewrite register_name_absent_dict by done.
    all: unfold lookup_entry, with_entries; simpl;
      rewrite ?lookup_insert_ne by done; done.
Qed.

Lemma register_name_frame_witness :
  lookup_entry (register_name "bar" f_obj (VDict 1) world_foo).2 "foo"
  = lookup_entry world_foo "foo"
  ∧ _information (self (register_name "bar" f_obj (VDict 1) world_foo).2) !! "foo"
    = _information (self world_foo) !! "foo"
  ∧ heap (register_name "bar" f_obj (VDict 1) world_foo).2 = heap world_foo.
Proof. apply (register_name_frame world_foo "bar" "foo" f_obj (VDict 1)). done. Defined.

(** The outcomes of [register(obj, info)].  When it returns, the value is
    [obj], the derived name was free and is now bound to [obj], and [info]
    was [None] or a dictionary.  When it raises, either the name was taken:
    the error is the name-collision [RuntimeError] and the state is unchanged;
    or the name was free and [info] is neither [None] nor a dictionary: the
    error is an [AssertionError]. *)
Theorem register_outcomes (w : world) (obj info : pyval) :
  match register obj info w with
  | (inr v, w') =>
      v = obj
      ∧ lookup_entry w (derived_name obj) = None
      ∧ lookup_entry w' (derived_name obj) = Some obj
      ∧ (is_none info = true ∨ isinstance_dict info = true)
  | (inl e, w') =>
      (e = RuntimeError (collision_msg (derived_name obj))
       ∧ is_Some (lookup_entry w (derived_name obj))
       ∧ w' = w)
      ∨ (e = AssertionError
         ∧ lookup_entry w (derived_name obj) = None
         ∧ is_none info = false
         ∧ isinstance_dict info = false)
  end.
Proof.
  unfold register, mbind, py_bind.
  destruct (lookup_entry w (derived_name obj)) as [obj0|] eqn:H.
  - rewrite (register_name_present w _ obj0 obj info H). left. eauto.
  - destruct info as [|z|s|l|o].
    2,3,5: rewrite register_name_absent_bad_info by done; right; done.
    + rewrite register_name_absent_none by done. simpl.
      unfold lookup_entry, with_entries. simpl.
      rewrite lookup_insert_eq. eauto.
    + rewrite register_name_absent_dict by done. simpl.
      unfold lookup_entry. simpl. rewrite lookup_insert_eq. eauto.
Qed.

(** The number of registered names: a [register_name] on a free name adds
    one, even when it then fails on its [info]; a [register_name] on a taken
    name adds none; [unregister] of a registered name removes one. *)
Theorem len_after_calls (w : world) (name : string) (obj info : pyval) :
  (lookup_entry w name = None →
     len (register_name name obj info w).2 = S (len w))
  ∧ (is_Some (lookup_entry w name) →
     len (register_name name obj info w).2 = len w
     ∧ S (len (unregister name w).2) = len w).
Proof.
  unfold len. split.
  - intros H. destruct info as [|z|s|l|o].
    2,3,5: rewrite register_name_absent_bad_info by done.
    1: rewrite register_name_absent_none by done.
    5: rewrite register_name_absent_dict by done.
    all: simpl; by apply map_size_insert_None.
  - intros [obj0 H]. rewrite (register_name_present w name obj0 obj info H).
    split; [done|]. rewrite unregister_total. simpl.
    unfold lookup_entry in H.
    rewrite <- (insert_delete_id (entries (self w)) name obj0 H) at 2.
    symmetry. apply map_size_insert_None, lookup_delete_eq.
Qed.

(** ** Metadata is shared, not copied *)

(** The dictionary given to [register_name] is stored as it is: an
    assignment the caller makes through its own reference after the
    registration shows in what [get_info] returns, which is that same
    reference. *)
Theorem register_name_shares_info
    (w : world) (name : string) (obj : pyval) (l : loc) (c : pydict)
    (k : pykey) (v : pyval) :
  lookup_entry w name = None →
  heap w !! l = Some c →
  ∃ w', (register_name name obj (VDict l);; dict_setitem (VDict l) k v;;
         get_info name) w = (inr (VDict l), w')
        ∧ deref w' (VDict l) = Some (<[k := v]> c).
Proof.
  intros H Hl. unfold mbind, py_bind.
  rewrite register_name_absent_dict by done.
  match goal with |- context [dict_setitem _ k v ?w0] => set (w1 := w0) end.
  rewrite (dict_setitem_live w1 l c k v) by done.
  match goal with |- context [get_info name ?w0] => set (w2 := w0) end.
  destruct (get_info_again w2 name obj l (<[k := v]> c)) as (w' & Hg & _ & Hd).
  - unfold lookup_entry. simpl. apply lookup_insert_eq.
  - simpl. apply lookup_insert_eq.
  - simpl. apply lookup_insert_eq.
  - by exists w'.
Qed.

Lemma register_name_shares_info_witness :
  ∃ w', (register_name "foo" (VInt 42) (VDict 1);;
         dict_setitem (VDict 1) (KStr "seen") (VInt 7);;
         get_info "foo") world_two = (inr (VDict 1), w')
        ∧ deref w' (VDict 1)
          = Some (<[KStr "seen" := VInt 7]> {[KStr "priority" := VInt 1]}).
Proof.
  apply (register_name_shares_info world_two "foo" (VInt 42) 1
           {[KStr "priority" := VInt 1]} (KStr "seen") (VInt 7)); reflexivity.
Defined.

(** One decorator object used for two objects with different, free names:
    both are registered, and both names are given the very same metadata
    dictionary, the one built from the keyword arguments; [get_info] returns
    that one reference for either name. *)
Theorem decorator_reuse_shares_info
    (w : world) (kwargs : gmap string pyval) (o1 o2 : pyval) :
  derived_name o1 ≠ derived_name o2 →
  lookup_entry w (derived_name o1) = None →
  lookup_entry w (derived_name o2) = None →
  ∃ d w', decorate_twice kwargs o1 o2 w = (inr (Partial d), w')
          ∧ lookup_entry w' (derived_name o1) = Some o1
          ∧ lookup_entry w' (derived_name o2) = Some o2
          ∧ deref w' d = Some (kmap KStr kwargs)
          ∧ (∃ w1, get_info (derived_name o1) w' = (inr d, w1))
          ∧ (∃ w2, get_info (derived_name o2) w' = (inr d, w2)).
Proof.
  intros Hne H1 H2. set (l := fresh (dom (heap w))).
  exists (VDict l).
  unfold decorate_twice, register_with_info, partial_call, register, new_dict.
  unfold mbind, py_bind, mret, py_ret. simpl. fold l.
  rewrite register_name_absent_dict by done. simpl.
  rewrite register_name_absent_dict
    by (unfold lookup_entry in *; simpl; by rewrite lookup_insert_ne).
  simpl. eexists. split; [reflexivity|].
  match goal with |- lookup_entry ?w0 _ = _ ∧ _ => set (w' := w0) end.
  assert (E1 : lookup_entry w' (derived_name o1) = Some o1).
  { unfold lookup_entry. simpl. rewrite lookup_insert_ne by done.
    apply lookup_insert_eq. }
  assert (E2 : lookup_entry w' (derived_name o2) = Some o2).
  { unfold lookup_entry. simpl. apply lookup_insert_eq. }
  assert (Hl : heap w' !! l = Some (kmap KStr kwargs))
    by (simpl; apply lookup_insert_eq).
  split; [done|]. split; [done|]. split; [done|]. split.
  - destruct (get_info_again w' (derived_name o1) o1 l (kmap KStr kwargs) E1)
      as (w1 & Hg & _);
      [simpl; rewrite lookup_insert_ne by done; apply lookup_insert_eq
      | exact Hl | by exists w1].
  - destruct (get_info_again w' (derived_name o2) o2 l (kmap KStr kwargs) E2)
      as (w2 & Hg & _);
      [simpl; apply lookup_insert_eq | exact Hl | by exists w2].
Qed.

Lemma decorator_reuse_shares_info_witness :
  ∃ d w', decorate_twice {["priority" := VInt 1]} f_obj a1 world_foo
          = (inr (Partial d), w')
          ∧ lookup_entry w' (derived_name f_obj) = Some f_obj
          ∧ lookup_entry w' (derived_name a1) = Some a1
          ∧ deref w' d = Some (kmap KStr {["priority" := VInt 1]})
          ∧ (∃ w1, get_info (derived_name f_obj) w' = (inr d, w1))
          ∧ (∃ w2, get_info (derived_name a1) w' = (inr d, w2)).
Proof.
  apply (decorator_reuse_shares_info world_foo {["priority" := VInt 1]} f_obj a1);
    [done | reflexivity | reflexivity].
Defined.

(** ** [get_info] *)

(** Whether it returns or raises, [get_info(name)] never changes [entries],
    never changes the metadata stored for another name, never replaces
    metadata already stored for [name], and never changes a dictionary that
    exists on the heap. *)
Theorem get_info_frame (w : world) (name : string) :
  entries (self (get_info name w).2) = entries (self w)
  ∧ (∀ other, other ≠ name →
       _information (self (get_info name w).2) !! other
       = _information (self w) !! other)
  ∧ (∀ v, _information (self w) !! name = Some v →
       _information (self (get_info name w).2) !! name = Some v)
  ∧ (∀ l c, heap w !! l = Some c → heap (get_info name w).2 !! l = Some c).
Proof.
  assert (Hheap : ∀ l (c : pydict), heap w !! l = Some c →
            <[fresh (dom (heap w)) := ∅]> (heap w) !! l = Some c).
  { intros l c Hl. rewrite lookup_insert_ne; [done|].
    intros Hbad. rewrite <- Hbad in Hl. by rewrite fresh_heap_None in Hl. }
  destruct (lookup_entry w name) as [obj|] eqn:H.
  - destruct (_information (self w) !! name) as [v|] eqn:Hi.
    + rewrite (get_info_stored w name obj v H Hi). simpl.
      split; [done|]. split; [done|]. split; [|exact Hheap].
      intros v0 Hv. congruence.
    + rewrite (get_info_first w name obj H Hi). simpl.
      split; [done|]. split; [|split; [|exact Hheap]].
      * intros other Hne. by rewrite lookup_insert_ne.
      * intros v Hv. congruence.
  - rewrite (get_info_absent w name H). simpl. by repeat split.
Qed.

(** For a registered name [get_info] always returns, and what it returns
    is what [_information] then holds for the name. *)
Theorem get_info_registered (w : world) (name : string) (obj : pyval) :
  lookup_entry w name = Some obj →
  ∃ v w', get_info name w = (inr v, w')
          ∧ _information (self w') !! name = Some v
          ∧ lookup_entry w' name = Some obj.
Proof.
  intros H. destruct (_information (self w) !! name) as [v|] eqn:Hi.
  - rewrite (get_info_stored w name obj v H Hi). by eexists _, _.
  - rewrite (get_info_first w name obj H Hi). eexists _, _.
    split; [reflexivity|]. simpl. split; [apply lookup_insert_eq | done].
Qed.

Lemma get_info_registered_witness :
  ∃ v w', get_info "foo" world_foo = (inr v, w')
          ∧ _information (self w') !! "foo" = Some v
          ∧ lookup_entry w' "foo" = Some (VInt 42).
Proof. apply (get_info_registered world_foo "foo" (VInt 42)). reflexivity. Defined.

(** ** A new registry *)

(** Straight after [Registry()], whatever else exists on the heap, no name
    is registered: for every name [get_info] raises the not-registered
    [ValueError], [unregister] changes nothing, and [register_name] succeeds
    and leaves a registry holding that one name and no metadata. *)
Theorem new_registry_is_empty (h : gmap loc pydict) (name : string) (obj : pyval) :
  lookup_entry (World Registry_init h) name = None
  ∧ len (World Registry_init h) = 0
  ∧ get_info name (World Registry_init h)
    = (inl (ValueError (not_registered_msg name)), World Registry_init h)
  ∧ unregister name (World Registry_init h) = (inr (), World Registry_init h)
  ∧ register_name name obj VNone (World Registry_init h)
    = (inr (), World (mkRegistry {[name := obj]} ∅) h).
Proof.
  assert (H : lookup_entry (World Registry_init h) name = None) by done.
  split; [done|]. split; [done|].
  split; [by apply get_info_absent|].
  split; [by apply unregister_absent|].
  by rewrite register_name_absent_none.
Qed.

(** ** Invariants *)

Lemma live_mono (w w' : world) (v : pyval) :
  (∀ l, is_Some (heap w !! l) → is_Some (heap w' !! l)) →
  live w v → live w' v.
Proof. intros Hh. destruct v; simpl; auto. Qed.

Lemma info_wf_mono (w w' : world) :
  _information (self w') = _information (self w) →
  (∀ l, is_Some (heap w !! l) → is_Some (heap w' !! l)) →
  info_wf w → info_wf w'.
Proof.
  unfold info_wf. intros -> Hh Hwf. eapply map_Forall_impl; [exact Hwf|].
  intros name v. by apply live_mono.
Qed.

Lemma info_wf_insert (w w' : world) (name : string) (v : pyval) :
  _information (self w') = <[name := v]> (_information (self w)) →
  (∀ l, is_Some (heap w !! l) → is_Some (heap w' !! l)) →
  live w' v →
  info_wf w → info_wf w'.
Proof.
  unfold info_wf. intros -> Hh Hv Hwf. apply map_Forall_insert_2; [done|].
  eapply map_Forall_impl; [exact Hwf|]. intros n v0. by apply live_mono.
Qed.

Lemma fresh_insert_mono (w : world) (d : pydict) (l : loc) :
  is_Some (heap w !! l) → is_Some (<[fresh (dom (heap w)) := d]> (heap w) !! l).
Proof.
  intros Hl. rewrite lookup_insert_ne; [done|].
  intros Hbad. rewrite <- Hbad, fresh_heap_None in Hl. by destruct Hl.
Qed.

Lemma register_name_info_wf (w : world) (name : string) (obj info : pyval) :
  (isinstance_dict info = true → live w info) →
  info_wf w → info_wf (register_name name obj info w).2.
Proof.
  intros Hlive Hwf. destruct (lookup_entry w name) as [obj0|] eqn:H.
  - by rewrite (register_name_present w name obj0 obj info H).
  - destruct info as [|z|s|l|o].
    2,3,5: rewrite register_name_absent_bad_info by done.
    1: rewrite register_name_absent_none by done.
    5: rewrite register_name_absent_dict by done.
    1-4: by apply (info_wf_mono w).
    apply (info_wf_insert w _ name (VDict l)); auto.
Qed.

Lemma get_info_info_wf (w : world) (name : string) :
  info_wf w → info_wf (get_info name w).2.
Proof.
  intros Hwf. destruct (lookup_entry w name) as [obj|] eqn:H.
  - destruct (_information (self w) !! name) as [v|] eqn:Hi.
    + rewrite (get_info_stored w name obj v H Hi).
      apply (info_wf_mono w); [done | | done].
      intros l. apply fresh_insert_mono.
    + rewrite (get_info_first w name obj H Hi).
      apply (info_wf_insert w _ name (VDict (fresh (dom (heap w)))));
        [done | | | done].
      * intros l. apply fresh_insert_mono.
      * simpl. rewrite lookup_insert_eq. by eexists.
  - by rewrite (get_info_absent w name H).
Qed.

(** Every method keeps [_information] a mapping to dictionaries: if all its
    values are live dictionaries before a call, they are after it, whether
    the call returns or raises.  For [register_name] and [register] this
    holds for any [info] argument (a dictionary passed in must exist); a value
    that is not a dictionary is never stored.  Assignments a caller makes
    to a dictionary keep the property too. *)
Theorem info_wf_preserved (w : world) :
  info_wf w →
  (∀ name obj info, (isinstance_dict info = true → live w info) →
     info_wf (register_name name obj info w).2)
  ∧ (∀ obj info, (isinstance_dict info = true → live w info) →
     info_wf (register obj info w).2)
  ∧ (∀ name, info_wf (unregister name w).2)
  ∧ (∀ name, info_wf (get_info name w).2)
  ∧ (∀ kwargs obj, info_wf (decorate_with_info kwargs obj w).2)
  ∧ (∀ d k v, info_wf (dict_setitem d k v w).2).
Proof.
  intros Hwf. split; [|split; [|split; [|split; [|split]]]].
  - intros name obj info Hl. by apply register_name_info_wf.
  - intros obj info Hl. unfold register, mbind, py_bind.
    pose proof (register_name_info_wf w (derived_name obj) obj info Hl Hwf) as Hr.
    by destruct (register_name (derived_name obj) obj info w) as [[e|[]] w'].
  - intros name. rewrite unregister_total. by apply (info_wf_mono w).
  - intros name. by apply get_info_info_wf.
  - intros kwargs obj.
    unfold decorate_with_info, register_with_info, partial_call, register, new_dict.
    unfold mbind, py_bind, mret, py_ret. simpl.
    set (l := fresh (dom (heap w))).
    set (w1 := World (self w) (<[l := kmap KStr kwargs]> (heap w))).
    assert (Hwf1 : info_wf w1).
    { apply (info_wf_mono w); [done | | done]. intros l0. apply fresh_insert_mono. }
    assert (Hl1 : isinstance_dict (VDict l) = true → live w1 (VDict l)).
    { intros _. simpl. rewrite lookup_insert_eq. by eexists. }
    pose proof (register_name_info_wf w1 (derived_name obj) obj (VDict l) Hl1 Hwf1) as Hr.
    by destruct (register_name (derived_name obj) obj (VDict l) w1) as [[e|[]] w'].
  - intros d k v. destruct d as [| | |l|]; try done. simpl.
    apply (info_wf_mono w); [done | | done].
    intros l0 [c Hc]. simpl. rewrite lookup_alter.
    destruct (decide (l = l0)) as [->|]; rewrite Hc; by eexists.
Qed.

Lemma info_wf_preserved_witness :
  (∀ name obj info, (isinstance_dict info = true → live world_two info) →
     info_wf (register_name name obj info world_two).2)
  ∧ (∀ obj info, (isinstance_dict info = true → live world_two info) →
     info_wf (register obj info world_two).2)
  ∧ (∀ name, info_wf (unregister name world_two).2)
  ∧ (∀ name, info_wf (get_info name world_two).2)
  ∧ (∀ kwargs obj, info_wf (decorate_with_info kwargs obj world_two).2)
  ∧ (∀ d k v, info_wf (dict_setitem d k v world_two).2).
Proof. apply (info_wf_preserved world_two). apply map_Forall_empty. Defined.

(** When all values of [_information] are live dictionaries, [get_info] of
    a registered name returns a reference to a dictionary that exists. *)
Theorem get_info_returns_dict (w : world) (name : string) (obj : pyval) :
  info_wf w →
  lookup_entry w name = Some obj →
  ∃ l c w', get_info name w = (inr (VDict l), w') ∧ heap w' !! l = Some c.
Proof.
  intros Hwf H. destruct (_information (self w) !! name) as [v|] eqn:Hi.
  - pose proof (Hwf name v Hi) as Hv. simpl in Hv.
    destruct v as [| | |l|]; try done. destruct Hv as [c Hc].
    exists l, c. rewrite (get_info_stored w name obj (VDict l) H Hi).
    eexists. split; [reflexivity|]. simpl.
    destruct (fresh_insert_mono w ∅ l) as [c' Hc']; [by eexists|].
    rewrite lookup_insert_ne in Hc' |- *; [done|..];
      intros Hbad; rewrite <- Hbad, fresh_heap_None in Hc; done.
  - rewrite (get_info_first w name obj H Hi). eexists _, _, _.
    split; [reflexivity|]. simpl. apply lookup_insert_eq.
Qed.

Lemma get_info_returns_dict_witness :
  ∃ l c w', get_info "foo" world_foo = (inr (VDict l), w') ∧ heap w' !! l = Some c.
Proof.
  apply (get_info_returns_dict world_foo "foo" (VInt 42));
    [apply map_Forall_empty | reflexivity].
Defined.

(** [register_name], [register], [get_info] and the decorator keep every key
    of [_information] a registered name, whether they return or raise.
    [unregister(name)] keeps this exactly when [_information] holds nothing
    for [name]; otherwise it leaves a key of [_information] that is no longer
    registered. *)
Theorem info_keys_registered_preserved (w : world) :
  info_keys_registered w →
  (∀ name obj info, info_keys_registered (register_name name obj info w).2)
  ∧ (∀ obj info, info_keys_registered (register obj info w).2)
  ∧ (∀ name, info_keys_registered (get_info name w).2)
  ∧ (∀ kwargs obj, info_keys_registered (decorate_with_info kwargs obj w).2)
  ∧ (∀ name, info_keys_registered (unregister name w).2
             ↔ name ∉ dom (_information (self w))).
Proof.
  unfold info_keys_registered. intros Hk.
  assert (Hrn : ∀ w0 name obj info,
            dom (_information (self w0)) ⊆ dom (entries (self w0)) →
            dom (_information (self (register_name name obj info w0).2))
            ⊆ dom (entries (self (register_name name obj info w0).2))).
  { intros w0 name obj info Hk0.
    destruct (lookup_entry w0 name) as [obj0|] eqn:H.
    - by rewrite (register_name_present w0 name obj0 obj info H).
    - destruct info as [|z|s|l|o].
      2,3,5: rewrite register_name_absent_bad_info by done.
      1: rewrite register_name_absent_none by done.
      5: rewrite register_name_absent_dict by done.
      all: simpl; rewrite ?dom_insert_L; set_solver. }
  split; [|split; [|split; [|split]]].
  - intros name obj info. by apply Hrn.
  - intros obj info. unfold register, mbind, py_bind.
    pose proof (Hrn w (derived_name obj) obj info Hk) as Hr.
    by destruct (register_name (derived_name obj) obj info w) as [[e|[]] w'].
  - intros name. destruct (lookup_entry w name) as [obj|] eqn:H.
    + destruct (_information (self w) !! name) as [v|] eqn:Hi.
      * by rewrite (get_info_stored w name obj v H Hi).
      * rewrite (get_info_first w name obj H Hi). simpl.
        rewrite dom_insert_L.
        assert (name ∈ dom (entries (self w)))
          by (apply elem_of_dom; by exists obj).
        set_solver.
    + by rewrite (get_info_absent w name H).
  - intros kwargs obj.
    unfold decorate_with_info, register_with_info, partial_call, register, new_dict.
    unfold mbind, py_bind, mret, py_ret. simpl.
    set (w1 := World (self w) _).
    pose proof (Hrn w1 (derived_name obj) obj
                  (VDict (fresh (dom (heap w)))) Hk) as Hr.
    by destruct (register_name (derived_name obj) obj _ w1) as [[e|[]] w'].
  - intros name. rewrite unregister_total. simpl. rewrite dom_delete_L.
    split.
    + intros Hsub Hin. specialize (Hsub name Hin). set_solver.
    + set_solver.
Qed.

Lemma info_keys_registered_preserved_witness :
  (∀ name obj info, info_keys_registered (register_name name obj info world_foo).2)
  ∧ (∀ obj info, info_keys_registered (register obj info world_foo).2)
  ∧ (∀ name, info_keys_registered (get_info name world_foo).2)
  ∧ (∀ kwargs obj, info_keys_registered (decorate_with_info kwargs obj world_foo).2)
  ∧ (∀ name, info_keys_registered (unregister name world_foo).2
             ↔ name ∉ dom (_information (self world_foo))).
Proof.
  apply (info_keys_registered_preserved world_foo).
  unfold info_keys_registered. simpl. rewrite dom_empty_L. set_solver.
Defined.
